(** * sqlite_demo.py: the employee record store

    A shallow embedding of the four wrapper functions of [sqlite_demo.py]
    ([insert_emp], [get_emps_by_name], [update_pay], [remove_emp]) together
    with the part of Python's [sqlite3] module they run on: the connection
    used as a context manager, the cursor's [execute] with bound parameters
    and [fetchall].

    The table [employees] has no key and no index, so the engine keeps its
    rows in rowid order; a list of rows in that order is the table.

    What the module refuses to bind or to store depends on the Python
    version and on the limits the engine was built with, so the wrappers are
    defined over an [Engine] that says what is refused; [sqlite3_defaults]
    is the engine of CPython 3.11 on SQLite 3.40 with its default limits. *)

From Stdlib Require Import ZArith NArith List String Ascii Bool.
Import ListNotations.
Local Open Scope string_scope.
Local Open Scope list_scope.
Local Open Scope Z_scope.

(** ** Values *)

(** A Python [str]: its code points. A lone surrogate is a code point like
    any other here, as it is in Python. *)
Definition str : Type := list N.

(** The [str] of an ASCII literal. *)
Definition py (s : string) : str := map N_of_ascii (list_ascii_of_string s).

Fixpoint str_eqb (a b : str) : bool :=
  match a, b with
  | [], [] => true
  | x :: a', y :: b' => N.eqb x y && str_eqb a' b'
  | _, _ => false
  end.

(** SQLite's INTEGER storage class: a signed 64-bit integer. *)
Definition int64_ok (z : Z) : bool :=
  (- 2 ^ 63 <=? z) && (z <=? 2 ^ 63 - 1).


(** Python exceptions the calls below can end with: [OverflowError] for a
    Python [int] that does not fit SQLite's INTEGER (and for a text longer
    than a C [int] can count), [UnicodeEncodeError] for a [str] that has no
    UTF-8 encoding, [DataError] for [sqlite3.DataError] (too big a text or
    row), [Sqlite3Error] for the rest of the [sqlite3.Error] family. *)
Inductive exn : Type :=
| OverflowError
| UnicodeEncodeError
| DataError
| Sqlite3Error (msg : string).

Inductive outcome (A : Type) : Type :=
| Returned (a : A)
| Raised (e : exn).
Arguments Returned {A} a.
Arguments Raised {A} e.

(** Binding a Python [int] to a statement parameter: the value is converted
    to a signed 64-bit integer, and the conversion fails outside that range. *)
Definition int_refused (z : Z) : option exn :=
  if int64_ok z then None else Some OverflowError.

(** Modelled from the spec: the [Employee] class of [employee.py], which the
    script imports; a plain data holder with the attributes [first] (text),
    [last] (text) and [pay] (integer, a Python [int], hence unbounded). *)
Record Employee : Type := mkEmployee {
  first : str;
  last : str;
  pay : Z
}.

(** A row as [fetchall] hands it to Python: the tuple [(first, last, pay)]. *)
Definition pyrow : Type := (str * str * Z)%type.

(** ** What the engine refuses *)

(** [text_refused t]: the exception that binding the [str] [t] to a
    parameter raises, [None] when it is bound. [record_refused f l p]: the
    exception that writing the row [(f, l, p)] raises once its three values
    are bound, [None] when it is written. *)
Class Engine : Type := {
  text_refused : str -> option exn;
  record_refused : str -> str -> Z -> option exn
}.

(** *** CPython 3.11 on SQLite 3.40 *)

Definition is_surrogate (c : N) : bool := (55296 <=? c)%N && (c <=? 57343)%N.

(** Code points that UTF-8 encodes; a [str] holds none beyond 0x10FFFF. *)
Definition encodable (c : N) : bool := negb (is_surrogate c) && (c <? 1114112)%N.

Definition utf8_size (c : N) : Z :=
  if (c <? 128)%N then 1
  else if (c <? 2048)%N then 2
  else if (c <? 65536)%N then 3
  else 4.

Definition utf8_length (t : str) : Z :=
  fold_right (fun c n => utf8_size c + n) 0 t.

Definition INT_MAX : Z := 2 ^ 31 - 1.

(** [PyUnicode_AsUTF8AndSize], the module's own length check, then
    [sqlite3_bind_text] against SQLITE_LIMIT_LENGTH. *)
Definition bind_text (limit : Z) (t : str) : option exn :=
  if negb (forallb encodable t) then Some UnicodeEncodeError
  else if INT_MAX <? utf8_length t then Some OverflowError
  else if limit <? utf8_length t then Some DataError
  else None.

(** Bytes of SQLite's variable-length integer. *)
Definition varint_len (v : Z) : Z :=
  if v <? 2 ^ 7 then 1
  else if v <? 2 ^ 14 then 2
  else if v <? 2 ^ 21 then 3
  else if v <? 2 ^ 28 then 4
  else if v <? 2 ^ 35 then 5
  else if v <? 2 ^ 42 then 6
  else if v <? 2 ^ 49 then 7
  else if v <? 2 ^ 56 then 8
  else 9.

(** Bytes an INTEGER takes in a record: none for 0 and 1. *)
Definition int_size (p : Z) : Z :=
  let u := if p <? 0 then - p - 1 else p in
  if u <=? 127 then (if (p =? 0) || (p =? 1) then 0 else 1)
  else if u <=? 32767 then 2
  else if u <=? 8388607 then 3
  else if u <=? 2147483647 then 4
  else if u <=? 140737488355327 then 6
  else 8.

(** The record of a row: a header with its own size and one serial type per
    column, then the two texts and the integer. *)
Definition record_size (f l : str) (p : Z) : Z :=
  let header :=
    varint_len (2 * utf8_length f + 13) + varint_len (2 * utf8_length l + 13) + 1 in
  (header + 1) + utf8_length f + utf8_length l + int_size p.

Definition store_record (limit : Z) (f l : str) (p : Z) : option exn :=
  if limit <? record_size f l p then Some DataError else None.

(** The engine with SQLITE_LIMIT_LENGTH set to [limit]. *)
Definition sqlite3_engine (limit : Z) : Engine :=
  {| text_refused := bind_text limit; record_refused := store_record limit |}.

Definition sqlite3_defaults : Engine := sqlite3_engine (10 ^ 9).

(** ** The store over an engine *)

Section Store.

Context {E : Engine}.

Definition first_refusal (vs : list (option exn)) : option exn :=
  fold_right (fun v rest => match v with Some e => Some e | None => rest end)
    None vs.

(** What stands in the way of storing [(f, l, p)], in the order INSERT meets
    it: its parameters :first, :last, :pay, then the record. *)
Definition refusal (f l : str) (p : Z) : option exn :=
  first_refusal [text_refused f; text_refused l; int_refused p;
                 record_refused f l p].

Definition check (f l : str) (p : Z) :
  {e : exn | refusal f l p = Some e} + {refusal f l p = None}.
Proof.
  destruct (refusal f l p) as [e |].
  - left. exists e. reflexivity.
  - right. reflexivity.
Defined.

(** A stored row of [employees (first text, last text, pay integer)]: the
    engine stores nothing it refuses. *)
Record row : Type := mkRow {
  r_first : str;
  r_last : str;
  r_pay : Z;
  r_ok : refusal r_first r_last r_pay = None
}.

Definition table : Type := list row.

Definition to_py (r : row) : pyrow := (r_first r, r_last r, r_pay r).

(** *** The connection *)

(** [conn]: the committed table and, while a transaction is open, the
    transaction's working copy of it. *)
Record connection : Type := mkConn {
  committed : table;
  pending : option table
}.

(** What a statement run on this connection sees. *)
Definition view (s : connection) : table :=
  match pending s with
  | Some t => t
  | None => committed s
  end.

(** [sqlite3.connect(':memory:')] followed by the CREATE TABLE statement. *)
Definition fresh : connection := mkConn [] None.

Definition begin (s : connection) : connection :=
  match pending s with
  | Some _ => s
  | None => mkConn (committed s) (Some (committed s))
  end.

Definition commit (s : connection) : connection := mkConn (view s) None.

Definition rollback (s : connection) : connection := mkConn (committed s) None.

(** Replace the table the open transaction works on. *)
Definition write (t : table) (s : connection) : connection :=
  mkConn (committed s) (Some t).

(** Computations on the shared connection: they return or raise, and leave
    the connection in some state either way. *)
Definition M (A : Type) : Type := connection -> outcome A * connection.

Definition ret {A : Type} (a : A) : M A := fun s => (Returned a, s).

Definition raise {A : Type} (e : exn) : M A := fun s => (Raised e, s).

Definition bind {A B : Type} (m : M A) (k : A -> M B) : M B :=
  fun s =>
    match m s with
    | (Returned a, s') => k a s'
    | (Raised e, s') => (Raised e, s')
    end.

Notation "x <- m ;; k" := (bind m (fun x => k))
  (at level 61, m at next level, right associativity).
Notation "m ;;; k" := (bind m (fun _ => k))
  (at level 61, right associativity).

(** [with conn: body]: [__exit__] commits when the body returned, rolls back
    when it raised, and never swallows the exception. *)
Definition with_conn {A : Type} (body : M A) : M A :=
  fun s =>
    match body s with
    | (Returned a, s') => (Returned a, commit s')
    | (Raised e, s') => (Raised e, rollback s')
    end.

(** *** The four statements of the script *)

(** The SQL texts with their named parameters, as the values bound to them;
    the arguments stand in the order the parameters have in the text. *)
Inductive statement : Type :=
| INSERT (p_first p_last : str) (p_pay : Z)
    (* INSERT INTO employees VALUES (:first, :last, :pay) *)
| SELECT (p_last : str)
    (* SELECT * FROM employees WHERE last=:last *)
| UPDATE (p_pay : Z) (p_last p_first : str)
    (* UPDATE employees SET pay=:pay WHERE last=:last AND first=:first *)
| DELETE (p_first p_last : str).
    (* DELETE FROM employees WHERE first=:first AND last=:last *)

Definition is_dml (q : statement) : bool :=
  match q with
  | SELECT _ => false
  | _ => true
  end.

(** Binding the parameters, one after the other as the text numbers them;
    the first that is refused ends the call. *)
Definition binding (q : statement) : option exn :=
  match q with
  | INSERT f l p => first_refusal [text_refused f; text_refused l; int_refused p]
  | SELECT l => text_refused l
  | UPDATE p l f => first_refusal [int_refused p; text_refused l; text_refused f]
  | DELETE f l => first_refusal [text_refused f; text_refused l]
  end.

(** WHERE clauses; text is compared byte for byte, which on encoded text is
    code point for code point. *)
Definition last_is (l : str) (r : row) : bool := str_eqb (r_last r) l.

Definition same_emp (f l : str) (r : row) : bool :=
  str_eqb (r_first r) f && str_eqb (r_last r) l.

(** The engine's work on the table. A new row gets the next rowid, so it goes
    last; UPDATE keeps rowids and rewrites each matching row, which all have
    the first and last of the WHERE clause, as the row [new]; DELETE drops
    the matching rows. *)
Definition sql_insert (r : row) (t : table) : table := t ++ [r].

Definition sql_select (l : str) (t : table) : table := filter (last_is l) t.

Definition sql_update (new : row) (l f : str) (t : table) : table :=
  map (fun r => if same_emp f l r then new else r) t.

Definition sql_delete (f l : str) (t : table) : table :=
  filter (fun r => negb (same_emp f l r)) t.

(** The rows a cursor holds after [execute], for [fetchall] to return. *)
Definition cursor : Type := list pyrow.

(** One statement with its parameters on a table: the parameters are bound,
    then the statement runs; INSERT writes its record, UPDATE writes one
    when a row matches, and the engine may refuse the record. The result is
    the rows for the cursor and the table afterwards. *)
Definition sqlite_step (q : statement) (t : table) : outcome (cursor * table) :=
  match binding q with
  | Some e => Raised e
  | None =>
      match q with
      | INSERT f l p =>
          match check f l p with
          | inleft (exist _ e _) => Raised e
          | inright H => Returned ([], sql_insert (mkRow f l p H) t)
          end
      | SELECT l => Returned (map to_py (sql_select l t), t)
      | UPDATE p l f =>
          if existsb (same_emp f l) t then
            match check f l p with
            | inleft (exist _ e _) => Raised e
            | inright H => Returned ([], sql_update (mkRow f l p H) l f t)
            end
          else Returned ([], t)
      | DELETE f l => Returned ([], sql_delete f l t)
      end
  end.

(** [c.execute(sql, params)]. Before INSERT, UPDATE or DELETE the module
    opens a transaction if none is open; the statement then works on the
    transaction's table. A SELECT opens nothing and changes nothing. *)
Definition c_execute (q : statement) : M cursor :=
  fun s =>
    let s1 := if is_dml q then begin s else s in
    match sqlite_step q (view s1) with
    | Returned (c, t') => (Returned c, if is_dml q then write t' s1 else s1)
    | Raised e => (Raised e, s1)
    end.

Definition fetchall (c : cursor) : list pyrow := c.

(** *** The wrapper functions *)

Definition insert_emp (emp : Employee) : M unit :=
  with_conn (c_execute (INSERT (first emp) (last emp) (pay emp)) ;;; ret tt).

Definition get_emps_by_name (lastname : str) : M (list pyrow) :=
  c <- c_execute (SELECT lastname) ;;
  ret (fetchall c).

Definition update_pay (emp : Employee) (new_pay : Z) : M unit :=
  with_conn (c_execute (UPDATE new_pay (last emp) (first emp)) ;;; ret tt).

Definition remove_emp (emp : Employee) : M unit :=
  with_conn (c_execute (DELETE (first emp) (last emp)) ;;; ret tt).

(** The two employees of the script. *)
Definition emp_1 : Employee := mkEmployee (py "John") (py "Doe") 80000.
Definition emp_2 : Employee := mkEmployee (py "Jane") (py "Doe") 90000.

(** The script's run: the two inserts, the first query, the update, the
    removal and the second query; it returns what the two [print]s show. *)
Definition script : M (list pyrow * list pyrow) :=
  insert_emp emp_1 ;;;
  insert_emp emp_2 ;;;
  emps <- get_emps_by_name (py "Doe") ;;
  update_pay emp_2 95000 ;;;
  remove_emp emp_1 ;;;
  emps' <- get_emps_by_name (py "Doe") ;;
  ret (emps, emps').

(** A run of inserts, one call after the other; an exception ends the run. *)
Fixpoint insert_all (emps : list Employee) : M unit :=
  match emps with
  | [] => ret tt
  | emp :: rest => insert_emp emp ;;; insert_all rest
  end.

(** *** Vocabulary of the properties *)

(** The connection a call leaves behind, whether it returned or raised. *)
Definition after {A : Type} (m : M A) (s : connection) : connection :=
  snd (m s).

(** The tuple [fetchall] shows for an employee stored as it is. *)
Definition emp_tuple (emp : Employee) : pyrow :=
  (first emp, last emp, pay emp).

Definition tuple_last_is (l : str) (x : pyrow) : bool :=
  str_eqb (snd (fst x)) l.

(** [get_emps_by_name lastname] returns, and [x] is among the rows. *)
Definition query_finds (lastname : str) (x : pyrow) (s : connection) : Prop :=
  exists rows,
    fst (get_emps_by_name lastname s) = Returned rows /\ In x rows.

(** Between the tables [t] and [t']: same rows at the same places, except
    that the rows of employee [(f, l)] now have pay [p2]. *)
Definition pay_set (f l : str) (p2 : Z) (t t' : table) : Prop :=
  List.length t' = List.length t /\
  forall (i : nat) (r : row),
    nth_error t i = Some r ->
    exists r',
      nth_error t' i = Some r' /\
      r_first r' = r_first r /\
      r_last r' = r_last r /\
      if same_emp f l r then r_pay r' = p2 else r' = r.

(** [op] is statement [q] run in a scoped transaction on [s]: when the
    execution raises, the same exception leaves [op], the committed table is
    what it was and no transaction stays open; when it returns, everything
    the execution did is committed. *)
Definition scoped (q : statement) (op : M unit) (s : connection) : Prop :=
  match c_execute q s with
  | (Raised e, _) =>
      op s = (Raised e, mkConn (committed s) None) /\
      (pending s = None -> after op s = s)
  | (Returned _, s1) =>
      op s = (Returned tt, mkConn (view s1) None)
  end.

(** The WHERE clause of UPDATE and DELETE, read on a fetched tuple. *)
Definition tuple_same_emp (f l : str) (x : pyrow) : bool :=
  str_eqb (fst (fst x)) f && str_eqb (snd (fst x)) l.

(** A fetched tuple after UPDATE: the pay replaced where the clause holds. *)
Definition set_tuple_pay (f l : str) (p2 : Z) (x : pyrow) : pyrow :=
  if tuple_same_emp f l x then (fst x, p2) else x.

(** No stored row is employee [(f, l)]. *)
Definition absent (f l : str) (t : table) : Prop :=
  forall r, In r t -> ~ (r_first r = f /\ r_last r = l).

End Store.

Notation "x <- m ;; k" := (bind m (fun x => k))
  (at level 61, m at next level, right associativity).
Notation "m ;;; k" := (bind m (fun _ => k))
  (at level 61, right associativity).

Definition pyrow_eq_dec (x y : pyrow) : {x = y} + {x <> y}.
Proof. repeat decide equality. Defined.

(** An employee whose pay is one past the largest 64-bit integer. *)
Definition emp_big : Employee := mkEmployee (py "John") (py "Doe") (2 ^ 63).

(** A last name that ends in a lone surrogate, as  'Doe\ud800'  in Python. *)
Definition lone : str := py "Doe" ++ [55296%N].

Definition emp_lone : Employee := mkEmployee (py "John") lone 0.

(** * Properties, on every engine *)

Section Properties.

Context {E : Engine}.

(** ** Text and refusals *)

Lemma str_eqb_eq (a b : str) : str_eqb a b = true <-> a = b.
Proof.
  revert b. induction a as [| x a IH]; intros [| y b]; cbn;
    try (split; [discriminate | discriminate]); [tauto |].
  rewrite andb_true_iff, N.eqb_eq, IH. split.
  - intros [-> ->]. reflexivity.
  - intros H. injection H as -> ->. split; reflexivity.
Qed.



Lemma refusal_parts (f l : str) (p : Z) :
  refusal f l p = None <->
  text_refused f = None /\ text_refused l = None /\
  int_refused p = None /\ record_refused f l p = None.
Proof.
  unfold refusal. cbn.
  destruct (text_refused f), (text_refused l), (int_refused p),
    (record_refused f l p); split; try discriminate; try tauto;
    intros [A [B [C D]]]; discriminate.
Qed.

Lemma refusal_at_binding (f l : str) (p : Z) (e : exn) :
  binding (INSERT f l p) = Some e -> refusal f l p = Some e.
Proof.
  unfold refusal. cbn.
  destruct (text_refused f), (text_refused l), (int_refused p);
    try discriminate; intros H; exact H.
Qed.

Lemma binding_update_none (f l : str) (p : Z) :
  binding (UPDATE p l f) = None <->
  int_refused p = None /\ text_refused l = None /\ text_refused f = None.
Proof.
  cbn. destruct (int_refused p), (text_refused l), (text_refused f);
    split; try discriminate; try tauto; intros [A [B C]]; discriminate.
Qed.

Lemma binding_delete_none (f l : str) :
  binding (DELETE f l) = None <->
  text_refused f = None /\ text_refused l = None.
Proof.
  cbn. destruct (text_refused f), (text_refused l);
    split; try discriminate; try tauto; intros [A B]; discriminate.
Qed.

Lemma row_texts_bound (r : row) :
  text_refused (r_first r) = None /\ text_refused (r_last r) = None.
Proof.
  destruct (proj1 (refusal_parts _ _ _) (r_ok r)) as [A [B _]]. now split.
Qed.

(** ** The connection's transaction state *)

Lemma view_begin (s : connection) : view (begin s) = view s.
Proof. destruct s as [t [u |]]; reflexivity. Qed.

Lemma committed_begin (s : connection) : committed (begin s) = committed s.
Proof. destruct s as [t [u |]]; reflexivity. Qed.

Lemma rollback_begin (s : connection) : rollback (begin s) = rollback s.
Proof. unfold rollback. now rewrite committed_begin. Qed.

Lemma rollback_idle (s : connection) : pending s = None -> rollback s = s.
Proof. destruct s as [t [u |]]; [discriminate | reflexivity]. Qed.

Lemma commit_write (t : table) (s : connection) :
  commit (write t s) = mkConn t None.
Proof. reflexivity. Qed.

(** ** What each wrapper does, in one equation *)

(** A mutating wrapper is the engine's step on the visible table, committed
    when it returned and rolled back when it raised. *)
Lemma with_conn_execute (q : statement) (s : connection) :
  is_dml q = true ->
  with_conn (c_execute q ;;; ret tt) s =
  match sqlite_step q (view s) with
  | Returned (_, t') => (Returned tt, mkConn t' None)
  | Raised e => (Raised e, rollback s)
  end.
Proof.
  intros Hq. unfold with_conn, bind, c_execute, ret. rewrite Hq, view_begin.
  destruct (sqlite_step q (view s)) as [[c t'] | e].
  - now rewrite commit_write.
  - now rewrite rollback_begin.
Qed.

Lemma insert_emp_spec (emp : Employee) (s : connection) :
  insert_emp emp s =
  match check (first emp) (last emp) (pay emp) with
  | inleft (exist _ e _) => (Raised e, rollback s)
  | inright H =>
      (Returned tt,
       mkConn (view s ++ [mkRow (first emp) (last emp) (pay emp) H]) None)
  end.
Proof.
  unfold insert_emp. rewrite with_conn_execute by reflexivity.
  unfold sqlite_step.
  destruct (binding (INSERT (first emp) (last emp) (pay emp))) as [e |] eqn:B.
  - apply refusal_at_binding in B.
    destruct (check (first emp) (last emp) (pay emp)) as [[e' He] | H];
      congruence.
  - destruct (check (first emp) (last emp) (pay emp)) as [[e' He] | H];
      reflexivity.
Qed.

Lemma get_emps_by_name_spec (lastname : str) (s : connection) :
  get_emps_by_name lastname s =
  match text_refused lastname with
  | Some e => (Raised e, s)
  | None => (Returned (map to_py (sql_select lastname (view s))), s)
  end.
Proof.
  unfold get_emps_by_name, bind, c_execute, sqlite_step. cbn.
  destruct (text_refused lastname); reflexivity.
Qed.

Lemma update_pay_spec (emp : Employee) (new_pay : Z) (s : connection) :
  update_pay emp new_pay s =
  match binding (UPDATE new_pay (last emp) (first emp)) with
  | Some e => (Raised e, rollback s)
  | None =>
      if existsb (same_emp (first emp) (last emp)) (view s) then
        match check (first emp) (last emp) new_pay with
        | inleft (exist _ e _) => (Raised e, rollback s)
        | inright H =>
            (Returned tt,
             mkConn (sql_update (mkRow (first emp) (last emp) new_pay H)
                       (last emp) (first emp) (view s)) None)
        end
      else (Returned tt, mkConn (view s) None)
  end.
Proof.
  unfold update_pay. rewrite with_conn_execute by reflexivity.
  unfold sqlite_step.
  destruct (binding (UPDATE new_pay (last emp) (first emp))); [reflexivity |].
  destruct (existsb (same_emp (first emp) (last emp)) (view s)); [| reflexivity].
  destruct (check (first emp) (last emp) new_pay) as [[e' He] | H]; reflexivity.
Qed.

Lemma remove_emp_spec (emp : Employee) (s : connection) :
  remove_emp emp s =
  match binding (DELETE (first emp) (last emp)) with
  | Some e => (Raised e, rollback s)
  | None =>
      (Returned tt, mkConn (sql_delete (first emp) (last emp) (view s)) None)
  end.
Proof.
  unfold remove_emp. rewrite with_conn_execute by reflexivity.
  unfold sqlite_step.
  destruct (binding (DELETE (first emp) (last emp))); reflexivity.
Qed.

(** ** Lists of rows *)

Lemma select_tuples (l : str) (t : table) :
  map to_py (filter (last_is l) t) = filter (tuple_last_is l) (map to_py t).
Proof.
  induction t as [| r t IH]; [reflexivity |].
  cbn [filter map]. unfold tuple_last_is at 1, last_is at 1. cbn [to_py fst snd].
  destruct (str_eqb (r_last r) l); cbn [map]; now rewrite IH.
Qed.

Lemma same_emp_true (f l : str) (r : row) :
  same_emp f l r = true <-> r_first r = f /\ r_last r = l.
Proof.
  unfold same_emp. now rewrite andb_true_iff, !str_eqb_eq.
Qed.

Lemma last_is_true (l : str) (r : row) : last_is l r = true <-> r_last r = l.
Proof. unfold last_is. apply str_eqb_eq. Qed.

Lemma same_emp_new_row (f l : str) (p : Z) (H : refusal f l p = None) :
  same_emp f l (mkRow f l p H) = true.
Proof. apply same_emp_true. split; reflexivity. Qed.



Lemma sql_update_pay_set (new : row) (f l : str) (t : table) :
  r_first new = f -> r_last new = l ->
  pay_set f l (r_pay new) t (sql_update new l f t).
Proof.
  intros Hf Hl. unfold pay_set, sql_update. split; [apply length_map |].
  intros i r Hi. rewrite nth_error_map, Hi. cbn [option_map].
  eexists. split; [reflexivity |].
  destruct (same_emp f l r) eqn:Er; [| repeat split; reflexivity].
  apply same_emp_true in Er. destruct Er as [Ef El].
  repeat split; congruence.
Qed.

(** ** Insert, then query *)

(** C1, as amended: for every employee record (f, l, p) and every state of
    the table, [insert_emp] returns exactly when the engine refuses nothing
    of the row (f and l are bound as text, p fits a signed 64-bit integer,
    the record is within the engine's size limit); and whenever it returns,
    a following [get_emps_by_name l] returns rows among which is the tuple
    (f, l, p), all three fields as they were inserted. *)
Theorem insert_then_query (emp : Employee) (s : connection) :
  (fst (insert_emp emp s) = Returned tt <->
   refusal (first emp) (last emp) (pay emp) = None) /\
  (fst (insert_emp emp s) = Returned tt ->
   query_finds (last emp) (emp_tuple emp) (after (insert_emp emp) s)).
Proof.
  unfold after, query_finds. rewrite insert_emp_spec.
  destruct (check (first emp) (last emp) (pay emp)) as [[e He] | H]; cbn [fst snd].
  - split; [split; intros A; congruence | discriminate].
  - split; [split; intros _; [exact H | reflexivity] |]. intros _.
    rewrite get_emps_by_name_spec.
    destruct (proj1 (refusal_parts _ _ _) H) as [_ [Hl _]]. rewrite Hl.
    eexists. split; [reflexivity |]. cbn [view pending committed].
    apply in_map_iff. exists (mkRow (first emp) (last emp) (pay emp) H).
    split; [reflexivity |]. apply filter_In. split.
    + apply in_or_app. right. now left.
    + apply last_is_true. reflexivity.
Qed.

(** ** Insert, update, then query *)

Lemma existsb_inserted (f l : str) (p : Z) (H : refusal f l p = None)
    (t : table) :
  existsb (same_emp f l) (t ++ [mkRow f l p H]) = true.
Proof.
  rewrite existsb_app. cbn [existsb]. rewrite same_emp_new_row.
  now rewrite orb_true_r.
Qed.

(** C2, as amended: for every employee record (f, l, p), new pay p2 and
    state of the table, [insert_emp] and then [update_pay] with p2 both
    return when the engine refuses neither the row (f, l, p) nor the row
    (f, l, p2); and whenever both return, a following [get_emps_by_name l]
    returns rows among which is (f, l, p2): the new pay, first and last
    unchanged. *)
Theorem insert_update_then_query (emp : Employee) (p2 : Z) (s : connection) :
  let s1 := after (insert_emp emp) s in
  (refusal (first emp) (last emp) (pay emp) = None ->
   refusal (first emp) (last emp) p2 = None ->
   fst (insert_emp emp s) = Returned tt /\
   fst (update_pay emp p2 s1) = Returned tt) /\
  (fst (insert_emp emp s) = Returned tt ->
   fst (update_pay emp p2 s1) = Returned tt ->
   query_finds (last emp) (first emp, last emp, p2)
     (after (update_pay emp p2) s1)).
Proof.
  intros s1. subst s1. unfold after, query_finds. rewrite insert_emp_spec.
  destruct (check (first emp) (last emp) (pay emp)) as [[e He] | H]; cbn [fst snd].
  - split; [intros A; congruence | discriminate].
  - rewrite update_pay_spec. cbn [view pending committed].
    rewrite existsb_inserted.
    destruct (binding (UPDATE p2 (last emp) (first emp))) as [e |] eqn:B.
    + split; [| intros _ A; discriminate A]. intros _ H2.
      destruct (proj1 (refusal_parts _ _ _) H2) as [Hf [Hl [Hp _]]].
      assert (B' : binding (UPDATE p2 (last emp) (first emp)) = None)
        by (apply binding_update_none; repeat split; assumption).
      congruence.
    + destruct (check (first emp) (last emp) p2) as [[e He] | H2]; cbn [fst snd].
      * split; [intros _ A; congruence | intros _ A; discriminate A].
      * split; [intros _ _; split; reflexivity |]. intros _ _.
        rewrite get_emps_by_name_spec.
        destruct (proj1 (refusal_parts _ _ _) H) as [_ [Hl _]]. rewrite Hl.
        eexists. split; [reflexivity |]. cbn [view pending committed].
        apply in_map_iff. exists (mkRow (first emp) (last emp) p2 H2).
        split; [reflexivity |]. apply filter_In.
        split; [| apply last_is_true; reflexivity].
        unfold sql_update. apply in_map_iff.
        exists (mkRow (first emp) (last emp) (pay emp) H). split.
        -- now rewrite same_emp_new_row.
        -- apply in_or_app. right. now left.
Qed.

(** ** Remove, then query *)

(** C3, as amended: for every employee record (f, l, p) and every state of
    the table, [remove_emp] returns exactly when f and l are bound as text;
    and whenever it returns, a following [get_emps_by_name l] returns rows
    none of which has first field f and last field l. *)
Theorem remove_then_query (emp : Employee) (s : connection) :
  (fst (remove_emp emp s) = Returned tt <->
   text_refused (first emp) = None /\ text_refused (last emp) = None) /\
  (fst (remove_emp emp s) = Returned tt ->
   exists rows,
     fst (get_emps_by_name (last emp) (after (remove_emp emp) s))
       = Returned rows /\
     forall x, In x rows ->
       ~ (fst (fst x) = first emp /\ snd (fst x) = last emp)).
Proof.
  unfold after. rewrite remove_emp_spec, <- binding_delete_none.
  destruct (binding (DELETE (first emp) (last emp))) as [e |] eqn:B; cbn [fst snd].
  - split; [split; intros A; discriminate A | discriminate].
  - split; [split; reflexivity |]. intros _.
    apply binding_delete_none in B. destruct B as [_ Hl].
    rewrite get_emps_by_name_spec, Hl. eexists. split; [reflexivity |].
    cbn [view pending committed]. intros x Hx [Hf Hl'].
    apply in_map_iff in Hx. destruct Hx as [r [<- Hr]].
    apply filter_In in Hr. destruct Hr as [Hr _].
    unfold sql_delete in Hr. apply filter_In in Hr. destruct Hr as [_ Hr].
    cbn in Hf, Hl'.
    assert (Er : same_emp (first emp) (last emp) r = true)
      by (apply same_emp_true; split; assumption).
    rewrite Er in Hr. discriminate.
Qed.

(** ** What UPDATE changes and what it leaves alone *)

Lemma pay_set_no_match (f l : str) (p2 : Z) (t : table) :
  existsb (same_emp f l) t = false -> pay_set f l p2 t t.
Proof.
  intros Hn. split; [reflexivity |]. intros i r Hi.
  exists r. repeat split; [exact Hi |].
  destruct (same_emp f l r) eqn:Er; [| reflexivity].
  assert (X : existsb (same_emp f l) t = true)
    by (apply existsb_exists; exists r; split;
        [eapply nth_error_In; exact Hi | exact Er]).
  congruence.
Qed.

(** C4, as amended: for every state of the table, employee identity (f, l)
    and new pay p2, [update_pay] returns when the engine refuses nothing of
    the row (f, l, p2); and whenever it returns, every row whose first is f
    and last is l has pay p2 afterwards, every other row is the row it was,
    and no row changed its first or last field or its place. *)
Theorem update_pay_frame (emp : Employee) (p2 : Z) (s : connection) :
  (refusal (first emp) (last emp) p2 = None ->
   fst (update_pay emp p2 s) = Returned tt) /\
  (fst (update_pay emp p2 s) = Returned tt ->
   pay_set (first emp) (last emp) p2 (view s)
     (view (after (update_pay emp p2) s))).
Proof.
  unfold after. rewrite update_pay_spec.
  destruct (binding (UPDATE p2 (last emp) (first emp))) as [e |] eqn:B.
  - split; [| intros A; discriminate A]. intros H2.
    destruct (proj1 (refusal_parts _ _ _) H2) as [Hf [Hl [Hp _]]].
    assert (B' : binding (UPDATE p2 (last emp) (first emp)) = None)
      by (apply binding_update_none; repeat split; assumption).
    congruence.
  - destruct (existsb (same_emp (first emp) (last emp)) (view s)) eqn:X.
    + destruct (check (first emp) (last emp) p2) as [[e He] | H2]; cbn [fst snd].
      * split; [intros A; congruence | intros A; discriminate A].
      * split; [reflexivity |]. intros _. cbn [view pending committed].
        exact (sql_update_pay_set (mkRow (first emp) (last emp) p2 H2)
                 (first emp) (last emp) (view s) eq_refl eq_refl).
    + split; [reflexivity |]. intros _. cbn [snd view pending committed].
      now apply pay_set_no_match.
Qed.

(** ** Scoped transactions *)

(** C5: each of [insert_emp], [update_pay] and [remove_emp] is its statement
    run in a scoped transaction. If [c.execute] raises, the call raises that
    same exception, the committed table is unchanged and no transaction is
    left open (so a connection that had none open is exactly as before); if
    [c.execute] returns, the call returns with the statement's whole effect
    committed. There is no third case. *)
Theorem mutations_atomic (emp : Employee) (new_pay : Z) (s : connection) :
  scoped (INSERT (first emp) (last emp) (pay emp)) (insert_emp emp) s /\
  scoped (UPDATE new_pay (last emp) (first emp)) (update_pay emp new_pay) s /\
  scoped (DELETE (first emp) (last emp)) (remove_emp emp) s.
Proof.
  assert (G : forall q, is_dml q = true ->
                scoped q (with_conn (c_execute q ;;; ret tt)) s).
  { intros q Hq. unfold scoped, after. rewrite with_conn_execute by exact Hq.
    unfold c_execute. rewrite Hq, view_begin.
    destruct (sqlite_step q (view s)) as [[c t'] | e].
    - reflexivity.
    - split; [reflexivity |]. intros Hs. cbn [snd]. now apply rollback_idle. }
  repeat split; apply G; reflexivity.
Qed.

(** ** Queries that match nothing *)


(** ** Removing twice *)


(** ** Duplicates *)

Lemma stored_row_accepted (x : pyrow) (t : table) :
  In x (map to_py t) -> refusal (fst (fst x)) (snd (fst x)) (snd x) = None.
Proof.
  intros H. apply in_map_iff in H. destruct H as [r [<- _]]. exact (r_ok r).
Qed.

(** C8: for every state of the table that already shows the row (f, l, p),
    [insert_emp] of the record (f, l, p) returns, and the table afterwards is
    the table before with that row added once more at its end: the row
    occurs one more time than before. *)
Theorem insert_duplicate (emp : Employee) (s : connection) :
  In (emp_tuple emp) (map to_py (view s)) ->
  fst (insert_emp emp s) = Returned tt /\
  map to_py (view (after (insert_emp emp) s)) =
    map to_py (view s) ++ [emp_tuple emp] /\
  count_occ pyrow_eq_dec (map to_py (view (after (insert_emp emp) s)))
    (emp_tuple emp) =
  S (count_occ pyrow_eq_dec (map to_py (view s)) (emp_tuple emp)).
Proof.
  intros Hin. pose proof (stored_row_accepted _ _ Hin) as Hok.
  unfold emp_tuple in Hok. cbn [fst snd] in Hok.
  unfold after. rewrite insert_emp_spec.
  destruct (check (first emp) (last emp) (pay emp)) as [[e He] | H];
    [congruence |].
  cbn [fst snd view pending committed].
  assert (Eq : map to_py
                 (view s ++ [mkRow (first emp) (last emp) (pay emp) H]) =
               map to_py (view s) ++ [emp_tuple emp])
    by (rewrite map_app; reflexivity).
  rewrite Eq. repeat split.
  rewrite count_occ_app. cbn [count_occ].
  destruct (pyrow_eq_dec (emp_tuple emp) (emp_tuple emp)) as [_ | N];
    [apply Nat.add_1_r | now contradiction N].
Qed.

(** ** Order of the rows *)

Lemma insert_all_accepted (emps : list Employee) (s : connection) :
  Forall (fun emp => refusal (first emp) (last emp) (pay emp) = None) emps ->
  fst (insert_all emps s) = Returned tt.
Proof.
  revert s. induction emps as [| emp rest IH]; intros s H; [reflexivity |].
  inversion H as [| ? ? Hok Hrest]; subst.
  cbn [insert_all]. unfold bind. rewrite insert_emp_spec.
  destruct (check (first emp) (last emp) (pay emp)) as [[e He] | H'];
    [congruence |].
  now apply IH.
Qed.

Lemma insert_all_view (emps : list Employee) (s : connection) :
  fst (insert_all emps s) = Returned tt ->
  map to_py (view (after (insert_all emps) s)) =
  map to_py (view s) ++ map emp_tuple emps.
Proof.
  revert s. induction emps as [| emp rest IH]; intros s H.
  - cbn. now rewrite app_nil_r.
  - unfold after in *. cbn [insert_all] in *. unfold bind in *.
    rewrite insert_emp_spec in *.
    destruct (check (first emp) (last emp) (pay emp)) as [[e He] | H'].
    + discriminate H.
    + rewrite (IH _ H). cbn [view pending committed].
      rewrite map_app, <- app_assoc. reflexivity.
Qed.

(** C9, as amended: on the connection of this script, whose table starts
    empty and has neither key nor ORDER BY, a run of inserts returns when the
    engine refuses none of the rows; and for every run of inserts that
    returned and every last name l that is bound as text,
    [get_emps_by_name l] afterwards returns exactly the inserted records
    whose last is l, as tuples, in the order of their insertion. *)
Theorem inserts_in_order (emps : list Employee) (l : str) :
  (Forall (fun emp => refusal (first emp) (last emp) (pay emp) = None) emps ->
   fst (insert_all emps fresh) = Returned tt) /\
  (fst (insert_all emps fresh) = Returned tt ->
   text_refused l = None ->
   fst (get_emps_by_name l (after (insert_all emps) fresh)) =
   Returned (filter (tuple_last_is l) (map emp_tuple emps))).
Proof.
  split; [apply insert_all_accepted |]. intros H Hl.
  rewrite get_emps_by_name_spec, Hl. cbn [fst]. unfold sql_select.
  now rewrite select_tuples, (insert_all_view emps fresh H).
Qed.

(** * Further properties of the four wrappers *)

(** ** The statements on tables *)

Lemma absent_same_emp (f l : str) (t : table) (r : row) :
  absent f l t -> In r t -> same_emp f l r = false.
Proof.
  intros Ha Hr. destruct (same_emp f l r) eqn:Er; [| reflexivity].
  apply same_emp_true in Er. destruct (Ha r Hr Er).
Qed.

Lemma absent_no_match (f l : str) (t : table) :
  absent f l t -> existsb (same_emp f l) t = false.
Proof.
  intros Ha. destruct (existsb (same_emp f l) t) eqn:X; [| reflexivity].
  apply existsb_exists in X. destruct X as [r [Hr Er]].
  rewrite (absent_same_emp f l t r Ha Hr) in Er. discriminate.
Qed.

Lemma no_match_same_emp (f l : str) (t : table) (r : row) :
  existsb (same_emp f l) t = false -> In r t -> same_emp f l r = false.
Proof.
  intros X Hr. destruct (same_emp f l r) eqn:Er; [| reflexivity].
  assert (Y : existsb (same_emp f l) t = true)
    by (apply existsb_exists; exists r; split; assumption).
  congruence.
Qed.

Lemma sql_delete_no_match (f l : str) (t : table) :
  existsb (same_emp f l) t = false -> sql_delete f l t = t.
Proof.
  induction t as [| r t IH]; [reflexivity |].
  cbn [existsb]. intros X. apply orb_false_iff in X. destruct X as [Er Xt].
  unfold sql_delete in *. cbn [filter]. rewrite Er. cbn [negb].
  f_equal. now apply IH.
Qed.

Lemma sql_update_no_match (new : row) (f l : str) (t : table) :
  existsb (same_emp f l) t = false -> sql_update new l f t = t.
Proof.
  induction t as [| r t IH]; [reflexivity |].
  cbn [existsb]. intros X. apply orb_false_iff in X. destruct X as [Er Xt].
  unfold sql_update in *. cbn [map]. rewrite Er. f_equal. now apply IH.
Qed.

Lemma same_emp_as (f l f' l' : str) (r new : row) :
  same_emp f l r = true -> r_first new = f -> r_last new = l ->
  same_emp f' l' new = same_emp f' l' r.
Proof.
  intros Er Hf Hl. apply same_emp_true in Er. destruct Er as [Ef El].
  unfold same_emp. now rewrite Hf, Hl, Ef, El.
Qed.

Lemma match_after_update (new : row) (f l : str) (t : table) :
  r_first new = f -> r_last new = l ->
  existsb (same_emp f l) (sql_update new l f t) = existsb (same_emp f l) t.
Proof.
  intros Hf Hl. unfold sql_update. induction t as [| r t IH]; [reflexivity |].
  cbn [map existsb]. rewrite IH. f_equal.
  destruct (same_emp f l r) eqn:Er; [| exact Er].
  apply same_emp_true. now split.
Qed.

Lemma sql_update_twice (new1 new2 : row) (f l : str) (t : table) :
  r_first new1 = f -> r_last new1 = l ->
  sql_update new2 l f (sql_update new1 l f t) = sql_update new2 l f t.
Proof.
  intros Hf Hl. unfold sql_update. rewrite map_map. apply map_ext. intros r.
  destruct (same_emp f l r) eqn:Er; [| now rewrite Er].
  assert (X : same_emp f l new1 = true) by (apply same_emp_true; now split).
  now rewrite X.
Qed.

Lemma sql_delete_inserted (f l : str) (p : Z) (H : refusal f l p = None)
    (t : table) :
  sql_delete f l (t ++ [mkRow f l p H]) = sql_delete f l t.
Proof.
  unfold sql_delete. rewrite filter_app. cbn [filter].
  rewrite same_emp_new_row. cbn [negb]. apply app_nil_r.
Qed.

Lemma sql_delete_swap (f l f' l' : str) (t : table) :
  sql_delete f l (sql_delete f' l' t) = sql_delete f' l' (sql_delete f l t).
Proof.
  unfold sql_delete. induction t as [| r t IH]; [reflexivity |].
  cbn [filter].
  destruct (same_emp f' l' r) eqn:E', (same_emp f l r) eqn:Er;
    cbn [negb filter]; rewrite ?Er, ?E'; cbn [negb]; now rewrite IH.
Qed.

Lemma sql_delete_update (new : row) (f l f' l' : str) (t : table) :
  r_first new = f -> r_last new = l ->
  sql_delete f' l' (sql_update new l f t) =
  sql_update new l f (sql_delete f' l' t).
Proof.
  intros Hf Hl. unfold sql_delete, sql_update.
  induction t as [| r t IH]; [reflexivity |].
  cbn [filter map].
  assert (X : same_emp f' l' (if same_emp f l r then new else r)
              = same_emp f' l' r).
  { destruct (same_emp f l r) eqn:Er; [| reflexivity].
    now apply (same_emp_as f l). }
  rewrite X. destruct (same_emp f' l' r); cbn [negb map]; now rewrite IH.
Qed.

Lemma no_match_after_delete (f l f' l' : str) (t : table) :
  existsb (same_emp f l) t = false ->
  existsb (same_emp f l) (sql_delete f' l' t) = false.
Proof.
  intros X. destruct (existsb (same_emp f l) (sql_delete f' l' t)) eqn:Y;
    [| reflexivity].
  apply existsb_exists in Y. destruct Y as [r [Hr Er]].
  apply filter_In in Hr. destruct Hr as [Hr _].
  rewrite (no_match_same_emp f l t r X Hr) in Er. discriminate.
Qed.

Lemma select_insert (l' : str) (r : row) (t : table) :
  sql_select l' (sql_insert r t) =
  sql_select l' t ++ (if last_is l' r then [r] else []).
Proof.
  unfold sql_select, sql_insert. rewrite filter_app. cbn [filter].
  now destruct (last_is l' r).
Qed.

Lemma select_update (l' : str) (new : row) (f l : str) (t : table) :
  r_last new = l ->
  sql_select l' (sql_update new l f t) = sql_update new l f (sql_select l' t).
Proof.
  intros Hl. unfold sql_select, sql_update.
  induction t as [| r t IH]; [reflexivity |].
  cbn [filter map].
  assert (X : last_is l' (if same_emp f l r then new else r) = last_is l' r).
  { destruct (same_emp f l r) eqn:Er; [| reflexivity].
    apply same_emp_true in Er. destruct Er as [_ El].
    unfold last_is. now rewrite Hl, El. }
  rewrite X. destruct (last_is l' r); cbn [map]; now rewrite IH.
Qed.

Lemma select_delete (l' f l : str) (t : table) :
  sql_select l' (sql_delete f l t) = sql_delete f l (sql_select l' t).
Proof.
  unfold sql_select, sql_delete. induction t as [| r t IH]; [reflexivity |].
  cbn [filter].
  destruct (same_emp f l r) eqn:Er, (last_is l' r) eqn:E';
    cbn [negb filter]; rewrite ?Er, ?E'; cbn [negb]; now rewrite IH.
Qed.

Lemma tuples_delete (f l : str) (t : table) :
  map to_py (sql_delete f l t) =
  filter (fun x => negb (tuple_same_emp f l x)) (map to_py t).
Proof.
  unfold sql_delete. induction t as [| r t IH]; [reflexivity |].
  cbn [filter map].
  change (tuple_same_emp f l (to_py r)) with (same_emp f l r).
  destruct (same_emp f l r); cbn [negb map]; now rewrite IH.
Qed.

Lemma tuples_update (new : row) (f l : str) (t : table) :
  r_first new = f -> r_last new = l ->
  map to_py (sql_update new l f t) =
  map (set_tuple_pay f l (r_pay new)) (map to_py t).
Proof.
  intros Hf Hl. unfold sql_update. rewrite !map_map. apply map_ext. intros r.
  unfold set_tuple_pay.
  change (tuple_same_emp f l (to_py r)) with (same_emp f l r).
  destruct (same_emp f l r) eqn:Er; [| reflexivity].
  apply same_emp_true in Er. destruct Er as [Ef El].
  unfold to_py. cbn [fst]. now rewrite Hf, Hl, Ef, El.
Qed.

Lemma tuples_no_match (f l : str) (p : Z) (t : table) :
  existsb (same_emp f l) t = false ->
  map (set_tuple_pay f l p) (map to_py t) = map to_py t.
Proof.
  intros X. rewrite map_map. apply map_ext_in. intros r Hr.
  unfold set_tuple_pay.
  change (tuple_same_emp f l (to_py r)) with (same_emp f l r).
  now rewrite (no_match_same_emp f l t r X Hr).
Qed.

Lemma no_match_selected (f l l' : str) (t : table) :
  existsb (same_emp f l) t = false ->
  existsb (same_emp f l) (sql_select l' t) = false.
Proof.
  intros X. destruct (existsb (same_emp f l) (sql_select l' t)) eqn:Y;
    [| reflexivity].
  apply existsb_exists in Y. destruct Y as [r [Hr Er]].
  apply filter_In in Hr. destruct Hr as [Hr _].
  rewrite (no_match_same_emp f l t r X Hr) in Er. discriminate.
Qed.

(** ** What a query returns *)


(** ** Updates and removals that match nothing *)

(** X2: when no stored row is employee (f, l), [update_pay] returns exactly
    when its three parameters are bound (no record is written, so the size
    of a row plays no part); if it returns the table is as before; and a
    connection with no open transaction is left exactly as it was, whether
    the call returned or raised. *)
Theorem update_no_match (emp : Employee) (p2 : Z) (s : connection) :
  absent (first emp) (last emp) (view s) ->
  (fst (update_pay emp p2 s) = Returned tt <->
   int_refused p2 = None /\ text_refused (last emp) = None /\
   text_refused (first emp) = None) /\
  (fst (update_pay emp p2 s) = Returned tt ->
   view (after (update_pay emp p2) s) = view s) /\
  (pending s = None -> after (update_pay emp p2) s = s).
Proof.
  intros Ha. unfold after. rewrite update_pay_spec, <- binding_update_none.
  rewrite (absent_no_match _ _ _ Ha).
  destruct (binding (UPDATE p2 (last emp) (first emp))) as [e |];
    cbn [fst snd view pending committed].
  - repeat split; try discriminate. now apply rollback_idle.
  - repeat split. intros Hs. destruct s as [t [u |]]; [discriminate | reflexivity].
Qed.

(** X3: when no stored row is employee (f, l), the table is as before if
    [remove_emp] returns, and a connection with no open transaction is left
    exactly as it was, whether the call returned or raised. *)
Theorem remove_no_match (emp : Employee) (s : connection) :
  absent (first emp) (last emp) (view s) ->
  (fst (remove_emp emp s) = Returned tt ->
   view (after (remove_emp emp) s) = view s) /\
  (pending s = None -> after (remove_emp emp) s = s).
Proof.
  intros Ha. unfold after. rewrite remove_emp_spec.
  destruct (binding (DELETE (first emp) (last emp))) as [e |];
    cbn [fst snd view pending committed].
  - split; [discriminate | now apply rollback_idle].
  - rewrite (sql_delete_no_match _ _ _ (absent_no_match _ _ _ Ha)).
    split; [reflexivity |].
    intros Hs. destruct s as [t [u |]]; [discriminate | reflexivity].
Qed.

(** ** What a query sees after a change *)

(** X4: whenever [remove_emp] of employee (f, l) returns, for any last name
    l' that is bound as text, what [get_emps_by_name l'] returns afterwards
    is what it returned before with the tuples of (f, l) taken out, the
    others in the same order. *)
Theorem remove_query_frame (emp : Employee) (l' : str) (s : connection) :
  fst (remove_emp emp s) = Returned tt ->
  text_refused l' = None ->
  exists rows,
    fst (get_emps_by_name l' s) = Returned rows /\
    fst (get_emps_by_name l' (after (remove_emp emp) s)) =
    Returned (filter (fun x => negb (tuple_same_emp (first emp) (last emp) x))
                rows).
Proof.
  unfold after. rewrite remove_emp_spec, !get_emps_by_name_spec.
  intros Hret ->.
  destruct (binding (DELETE (first emp) (last emp))); [discriminate Hret |].
  eexists. split; [reflexivity |]. cbn [fst snd view pending committed].
  now rewrite select_delete, tuples_delete.
Qed.

(** X5: whenever [insert_emp] returns, for any last name l' that is bound as
    text, what [get_emps_by_name l'] returns afterwards is what it returned
    before, followed by the new tuple when the new record's last is l', and
    nothing more. *)
Theorem insert_query_frame (emp : Employee) (l' : str) (s : connection) :
  fst (insert_emp emp s) = Returned tt ->
  text_refused l' = None ->
  exists rows,
    fst (get_emps_by_name l' s) = Returned rows /\
    fst (get_emps_by_name l' (after (insert_emp emp) s)) =
    Returned (rows ++ if str_eqb (last emp) l' then [emp_tuple emp] else []).
Proof.
  unfold after. rewrite insert_emp_spec, !get_emps_by_name_spec.
  intros Hret ->.
  destruct (check (first emp) (last emp) (pay emp)) as [[e He] | H];
    [discriminate Hret |].
  eexists. split; [reflexivity |]. cbn [fst snd view pending committed].
  fold (sql_insert (mkRow (first emp) (last emp) (pay emp) H) (view s)).
  rewrite select_insert, map_app.
  change (last_is l' (mkRow (first emp) (last emp) (pay emp) H))
    with (str_eqb (last emp) l').
  now destruct (str_eqb (last emp) l').
Qed.

(** X6: whenever [update_pay] of employee (f, l) to the pay p2 returns, for
    any last name l' that is bound as text, what [get_emps_by_name l']
    returns afterwards is what it returned before, tuple by tuple in the
    same order, with the pay of the tuples of (f, l) replaced by p2. *)
Theorem update_query_frame (emp : Employee) (p2 : Z) (l' : str)
    (s : connection) :
  fst (update_pay emp p2 s) = Returned tt ->
  text_refused l' = None ->
  exists rows,
    fst (get_emps_by_name l' s) = Returned rows /\
    fst (get_emps_by_name l' (after (update_pay emp p2) s)) =
    Returned (map (set_tuple_pay (first emp) (last emp) p2) rows).
Proof.
  unfold after. rewrite update_pay_spec, !get_emps_by_name_spec.
  intros Hret ->.
  destruct (binding (UPDATE p2 (last emp) (first emp))); [discriminate Hret |].
  destruct (existsb (same_emp (first emp) (last emp)) (view s)) eqn:X.
  - destruct (check (first emp) (last emp) p2) as [[e He] | H2];
      [discriminate Hret |].
    eexists. split; [reflexivity |]. cbn [fst snd view pending committed].
    rewrite select_update by reflexivity.
    now rewrite tuples_update by reflexivity.
  - eexists. split; [reflexivity |]. cbn [fst snd view pending committed].
    now rewrite (tuples_no_match _ _ p2 _ (no_match_selected _ _ l' _ X)).
Qed.

(** ** How the wrappers compose *)

(** X7: of two [update_pay] calls for the same employee that both return,
    only the second counts: made one after the other they end, outcome and
    connection, as the second alone. *)
Theorem update_last_wins (emp : Employee) (p1 p2 : Z) (s : connection) :
  fst (update_pay emp p1 s) = Returned tt ->
  fst (update_pay emp p2 s) = Returned tt ->
  update_pay emp p2 (after (update_pay emp p1) s) = update_pay emp p2 s.
Proof.
  unfold after. rewrite !update_pay_spec. intros H1 H2.
  destruct (binding (UPDATE p1 (last emp) (first emp))); [discriminate H1 |].
  destruct (binding (UPDATE p2 (last emp) (first emp))); [discriminate H2 |].
  destruct (existsb (same_emp (first emp) (last emp)) (view s)) eqn:X.
  - destruct (check (first emp) (last emp) p1) as [[e He] | K1];
      [discriminate H1 |].
    destruct (check (first emp) (last emp) p2) as [[e He] | K2];
      [discriminate H2 |].
    cbn [snd view pending committed].
    rewrite match_after_update by reflexivity. rewrite X.
    now rewrite sql_update_twice by reflexivity.
  - cbn [snd view pending committed]. now rewrite X.
Qed.

(** X8: [remove_emp] right after an [insert_emp] of the same record that
    returned (or, failing that, on a connection with no open transaction)
    ends as [remove_emp] alone: the new row is taken out again along with
    every older row of that employee. *)
Theorem insert_then_remove (emp : Employee) (s : connection) :
  fst (insert_emp emp s) = Returned tt \/ pending s = None ->
  remove_emp emp (after (insert_emp emp) s) = remove_emp emp s.
Proof.
  unfold after. rewrite insert_emp_spec, !remove_emp_spec.
  destruct (check (first emp) (last emp) (pay emp)) as [[e He] | H];
    cbn [fst snd].
  - intros [A | Hs]; [discriminate A |]. now rewrite !(rollback_idle s Hs).
  - intros _. cbn [view pending committed rollback].
    rewrite sql_delete_inserted.
    destruct (proj1 (refusal_parts _ _ _) H) as [Hf [Hl _]].
    assert (B : binding (DELETE (first emp) (last emp)) = None)
      by (apply binding_delete_none; split; assumption).
    now rewrite B.
Qed.


(** X10: on a connection with no open transaction, two [remove_emp] calls
    leave the same connection in either order, whether they return or
    raise. *)
Theorem remove_commute (emp emp' : Employee) (s : connection) :
  pending s = None ->
  after (remove_emp emp') (after (remove_emp emp) s) =
  after (remove_emp emp) (after (remove_emp emp') s).
Proof.
  destruct s as [t [u |]]; [discriminate |]. intros _.
  unfold after. rewrite !remove_emp_spec.
  destruct (binding (DELETE (first emp) (last emp))),
    (binding (DELETE (first emp') (last emp')));
    cbn [snd view pending committed rollback]; try reflexivity.
  now rewrite sql_delete_swap.
Qed.

(** X11: on a connection with no open transaction, an [update_pay] and a
    [remove_emp], of the same employee or of two different ones, leave the
    same connection in either order, whether they return or raise. *)
Theorem update_remove_commute (emp emp' : Employee) (p2 : Z) (s : connection) :
  pending s = None ->
  after (remove_emp emp') (after (update_pay emp p2) s) =
  after (update_pay emp p2) (after (remove_emp emp') s).
Proof.
  destruct s as [t [u |]]; [discriminate |]. intros _.
  unfold after. rewrite !remove_emp_spec, !update_pay_spec.
  destruct (binding (DELETE (first emp') (last emp'))) as [d |];
    destruct (binding (UPDATE p2 (last emp) (first emp))) as [u |];
    cbn [snd view pending committed rollback]; try reflexivity.
  - destruct (existsb (same_emp (first emp) (last emp)) t);
      [destruct (check (first emp) (last emp) p2) as [[e He] | H2] |];
      reflexivity.
  - destruct (existsb (same_emp (first emp) (last emp)) t) eqn:X.
    + destruct (check (first emp) (last emp) p2) as [[e He] | H2];
        cbn [snd view pending committed rollback].
      * destruct (existsb (same_emp (first emp) (last emp))
                    (sql_delete (first emp') (last emp') t));
          reflexivity.
      * rewrite sql_delete_update by reflexivity.
        destruct (existsb (same_emp (first emp) (last emp))
                    (sql_delete (first emp') (last emp') t)) eqn:Y;
          cbn [snd]; [reflexivity |].
        now rewrite (sql_update_no_match _ _ _ _ Y).
    + cbn [snd view pending committed].
      now rewrite (no_match_after_delete _ _ (first emp') (last emp') _ X).
Qed.

End Properties.

(** * The engine of the script: CPython 3.11, SQLite 3.40, default limits *)

#[local] Existing Instance sqlite3_defaults.

(** ** The script itself *)

Example script_prints :
  fst (script fresh) =
  Returned ([(py "John", py "Doe", 80000); (py "Jane", py "Doe", 90000)],
            [(py "Jane", py "Doe", 95000)]).
Proof. vm_compute. reflexivity. Qed.

(** The failing path: a pay that does not fit is refused at binding, after
    the transaction was opened, and the rollback closes it again. *)
Example execute_big_opens_transaction :
  c_execute (INSERT (py "John") (py "Doe") (2 ^ 63)) fresh =
  (Raised OverflowError, mkConn [] (Some [])).
Proof. reflexivity. Qed.

Example insert_big_raises :
  insert_emp emp_big fresh = (Raised OverflowError, fresh).
Proof. reflexivity. Qed.

(** The context manager undoes what a failing body did, whatever it raised. *)
Example with_conn_undoes :
  with_conn (c_execute (INSERT (py "John") (py "Doe") 80000) ;;;
             raise (A := unit) (Sqlite3Error "disk I/O error")) fresh =
  (Raised (Sqlite3Error "disk I/O error"), fresh).
Proof. reflexivity. Qed.

(** Parameters are bound in the order of the statement's text: INSERT meets
    the unencodable name before the pay, UPDATE meets the pay first. *)
Example insert_binds_names_first :
  fst (insert_emp (mkEmployee [55296%N] (py "Doe") (2 ^ 63)) fresh) =
  Raised UnicodeEncodeError.
Proof. vm_compute. reflexivity. Qed.

Example update_binds_pay_first :
  fst (update_pay (mkEmployee [55296%N] (py "Doe") 0) (2 ^ 63) fresh) =
  Raised OverflowError.
Proof. vm_compute. reflexivity. Qed.

(** With SQLITE_LIMIT_LENGTH lowered to 1000: a text of 1000 bytes is bound
    and one of 1001 is not; a row whose record is 1000 bytes is stored and
    one of 1001 is not; and an UPDATE is refused when the new pay makes the
    record outgrow the limit. *)
Example text_limit :
  bind_text 1000 (repeat 97%N 1000) = None /\
  bind_text 1000 (repeat 97%N 1001) = Some DataError /\
  bind_text 1000 (repeat 233%N 500) = None /\
  bind_text 1000 (repeat 233%N 501) = Some DataError.
Proof. vm_compute. repeat split. Qed.

Example record_limit :
  let E1000 := sqlite3_engine 1000 in
  let long := mkEmployee (repeat 97%N 994) (py "b") 0 in
  let longer := mkEmployee (repeat 97%N 995) (py "b") 0 in
  fst (insert_emp (E := E1000) long fresh) = Returned tt /\
  fst (insert_emp (E := E1000) longer fresh) = Raised DataError /\
  fst (update_pay (E := E1000) long 1 (after (insert_emp long) fresh))
    = Returned tt /\
  fst (update_pay (E := E1000) long 5 (after (insert_emp long) fresh))
    = Raised DataError.
Proof. vm_compute. repeat split. Qed.

(** Still with the limit at 1000. A second [update_pay] that the engine
    refuses leaves the pay of the first in place, where the second alone
    leaves the old pay; so two updates are the second alone only when both
    return. *)
Example second_update_refused :
  let E1000 := sqlite3_engine 1000 in
  let long := mkEmployee (repeat 97%N 994) (py "b") 0 in
  let s := after (insert_emp (E := E1000) long) fresh in
  fst (update_pay long 5 (after (update_pay long 1) s)) = Raised DataError /\
  map (fun r => r_pay r) (view (after (update_pay long 5) (after (update_pay long 1) s)))
    = [1] /\
  map (fun r => r_pay r) (view (after (update_pay long 5) s)) = [0].
Proof. vm_compute. repeat split. Qed.

(** An [insert_emp] that the engine refuses rolls back the work that was
    open on the connection; a [remove_emp] after it then finds an empty
    table, where [remove_emp] alone commits that work. *)
Example refused_insert_drops_open_work :
  let E1000 := sqlite3_engine 1000 in
  let longer := mkEmployee (repeat 97%N 995) (py "b") 0 in
  let s := snd (c_execute (E := E1000) (INSERT (py "John") (py "Doe") 80000) fresh) in
  map to_py (view (after (remove_emp longer) (after (insert_emp longer) s))) = [] /\
  map to_py (view (after (remove_emp longer) s)) = [(py "John", py "Doe", 80000)].
Proof. vm_compute. repeat split. Qed.

(** ** The properties at work, and where the plain statements fail *)

Lemma insert_then_query_witness :
  fst (insert_emp emp_1 fresh) = Returned tt /\
  query_finds (py "Doe") (py "John", py "Doe", 80000)
    (after (insert_emp emp_1) fresh).
Proof.
  assert (R : fst (insert_emp emp_1 fresh) = Returned tt)
    by (apply (proj1 (insert_then_query emp_1 fresh)); reflexivity).
  split; [exact R | exact (proj2 (insert_then_query emp_1 fresh) R)].
Defined.

(** C1 as first written, for every record, fails: a pay of 2^63 is refused
    when it is bound, nothing is stored, and the query finds no such row. *)
Lemma insert_then_query_too_big :
  fst (insert_emp emp_big fresh) = Raised OverflowError /\
  ~ query_finds (last emp_big) (emp_tuple emp_big)
      (after (insert_emp emp_big) fresh).
Proof.
  split; [vm_compute; reflexivity |].
  intros [rows [Hrows Hin]]. vm_compute in Hrows. injection Hrows as <-.
  exact Hin.
Qed.

Lemma insert_update_then_query_witness :
  (fst (insert_emp emp_2 fresh) = Returned tt /\
   fst (update_pay emp_2 95000 (after (insert_emp emp_2) fresh)) = Returned tt) /\
  query_finds (py "Doe") (py "Jane", py "Doe", 95000)
    (after (update_pay emp_2 95000) (after (insert_emp emp_2) fresh)).
Proof.
  destruct (insert_update_then_query emp_2 95000 fresh) as [Hret Hq].
  assert (R : fst (insert_emp emp_2 fresh) = Returned tt /\
              fst (update_pay emp_2 95000 (after (insert_emp emp_2) fresh))
                = Returned tt)
    by (apply Hret; reflexivity).
  split; [exact R | exact (Hq (proj1 R) (proj2 R))].
Defined.

(** C2 as first written, for every pay and every new pay, fails. With a new
    pay of 2^63 the update raises and the row keeps its pay of 80000; with an
    inserted pay of 2^63 nothing is stored for the update to change. *)
Lemma insert_update_then_query_too_big :
  (fst (update_pay emp_1 (2 ^ 63) (after (insert_emp emp_1) fresh))
     = Raised OverflowError /\
   ~ query_finds (py "Doe") (py "John", py "Doe", 2 ^ 63)
       (after (update_pay emp_1 (2 ^ 63)) (after (insert_emp emp_1) fresh))) /\
  ~ query_finds (py "Doe") (py "John", py "Doe", 5)
      (after (update_pay emp_big 5) (after (insert_emp emp_big) fresh)).
Proof.
  split; [split; [vm_compute; reflexivity |] |].
  - intros [rows [Hrows Hin]]. vm_compute in Hrows. injection Hrows as <-.
    destruct Hin as [Hin | []]. vm_compute in Hin. discriminate Hin.
  - intros [rows [Hrows Hin]]. vm_compute in Hrows. injection Hrows as <-.
    exact Hin.
Qed.

Lemma remove_then_query_witness :
  let s := after (insert_emp emp_2) (after (insert_emp emp_1) fresh) in
  fst (remove_emp emp_1 s) = Returned tt /\
  exists rows,
    fst (get_emps_by_name (py "Doe") (after (remove_emp emp_1) s))
      = Returned rows /\
    forall x, In x rows ->
      ~ (fst (fst x) = py "John" /\ snd (fst x) = py "Doe").
Proof.
  intros s.
  assert (R : fst (remove_emp emp_1 s) = Returned tt)
    by (apply (proj1 (remove_then_query emp_1 s)); split; reflexivity).
  split; [exact R | exact (proj2 (remove_then_query emp_1 s) R)].
Defined.

(** C3 as first written, for every record, fails: a last name ending in a
    lone surrogate cannot be bound, so [remove_emp] raises and so does the
    query that follows; no sequence is returned. *)
Lemma remove_then_query_unbound :
  fst (remove_emp emp_lone fresh) = Raised UnicodeEncodeError /\
  ~ (exists rows,
       fst (get_emps_by_name (last emp_lone) (after (remove_emp emp_lone) fresh))
         = Returned rows /\
       forall x, In x rows ->
         ~ (fst (fst x) = first emp_lone /\ snd (fst x) = last emp_lone)).
Proof.
  split; [vm_compute; reflexivity |].
  intros [rows [Hrows _]]. vm_compute in Hrows. discriminate Hrows.
Qed.

Lemma update_pay_frame_witness :
  let s := after (insert_emp emp_2) (after (insert_emp emp_1) fresh) in
  fst (update_pay emp_2 95000 s) = Returned tt /\
  pay_set (py "Jane") (py "Doe") 95000 (view s)
    (view (after (update_pay emp_2 95000) s)).
Proof.
  intros s.
  assert (R : fst (update_pay emp_2 95000 s) = Returned tt)
    by (apply (proj1 (update_pay_frame emp_2 95000 s)); reflexivity).
  split; [exact R | exact (proj2 (update_pay_frame emp_2 95000 s) R)].
Defined.

(** C4 as first written, for every integer p2, fails: with p2 = 2^63 the call
    raises and John Doe's row keeps its pay of 80000. *)
Lemma update_pay_frame_too_big :
  let s := after (insert_emp emp_1) fresh in
  fst (update_pay emp_1 (2 ^ 63) s) = Raised OverflowError /\
  ~ pay_set (py "John") (py "Doe") (2 ^ 63) (view s)
      (view (after (update_pay emp_1 (2 ^ 63)) s)).
Proof.
  intros s. split; [vm_compute; reflexivity |]. intros [_ H].
  assert (Same : after (update_pay emp_1 (2 ^ 63)) s = s) by reflexivity.
  assert (Rows : map to_py (view s) = [(py "John", py "Doe", 80000)])
    by reflexivity.
  rewrite Same in H.
  destruct (view s) as [| r [| r2 t]]; try discriminate Rows.
  injection Rows as Ef El Ep.
  destruct (H 0%nat r eq_refl) as [r' [Hn [_ [_ Hp]]]].
  injection Hn as <-.
  unfold same_emp in Hp. rewrite Ef, El, Ep in Hp.
  vm_compute in Hp. discriminate Hp.
Qed.

Lemma mutations_atomic_witness :
  scoped (INSERT (py "John") (py "Doe") (2 ^ 63)) (insert_emp emp_big) fresh /\
  scoped (UPDATE 95000 (py "Doe") (py "John")) (update_pay emp_big 95000) fresh /\
  scoped (DELETE (py "John") (py "Doe")) (remove_emp emp_big) fresh.
Proof. exact (mutations_atomic emp_big 95000 fresh). Defined.





Lemma insert_duplicate_witness :
  let s := after (insert_emp emp_1) fresh in
  fst (insert_emp emp_1 s) = Returned tt /\
  map to_py (view (after (insert_emp emp_1) s)) =
    map to_py (view s) ++ [(py "John", py "Doe", 80000)] /\
  count_occ pyrow_eq_dec (map to_py (view (after (insert_emp emp_1) s)))
    (py "John", py "Doe", 80000) =
  S (count_occ pyrow_eq_dec (map to_py (view s)) (py "John", py "Doe", 80000)).
Proof.
  intros s. apply (insert_duplicate emp_1 s). left. reflexivity.
Defined.

Lemma inserts_in_order_witness :
  let emps := [emp_1; mkEmployee (py "Mary") (py "Schafer") 70000; emp_2] in
  fst (insert_all emps fresh) = Returned tt /\
  fst (get_emps_by_name (py "Doe") (after (insert_all emps) fresh)) =
  Returned [(py "John", py "Doe", 80000); (py "Jane", py "Doe", 90000)].
Proof.
  intros emps. destruct (inserts_in_order emps (py "Doe")) as [Hret Hrows].
  assert (R : fst (insert_all emps fresh) = Returned tt)
    by (apply Hret; repeat constructor).
  split; [exact R | exact (Hrows R eq_refl)].
Defined.

(** C9 as first written, for every last name, fails: after a run of inserts
    that returned, the query for a last name that cannot be bound raises
    instead of listing rows. *)
Lemma inserts_in_order_unbound :
  fst (insert_all [emp_1] fresh) = Returned tt /\
  fst (get_emps_by_name lone (after (insert_all [emp_1]) fresh)) =
  Raised UnicodeEncodeError.
Proof. split; vm_compute; reflexivity. Qed.

(** ** The further properties at work *)


Lemma update_no_match_witness :
  let s := after (insert_emp emp_1) fresh in
  fst (update_pay emp_2 95000 s) = Returned tt /\
  view (after (update_pay emp_2 95000) s) = view s /\
  after (update_pay emp_2 95000) s = s.
Proof.
  intros s.
  assert (Ha : absent (first emp_2) (last emp_2) (view s)).
  { intros r [<- | []] [Hf _]. discriminate Hf. }
  destruct (update_no_match emp_2 95000 s Ha) as [Hiff [Hview Hidle]].
  assert (R : fst (update_pay emp_2 95000 s) = Returned tt)
    by (apply Hiff; repeat split; reflexivity).
  split; [exact R | split; [exact (Hview R) | apply Hidle; reflexivity]].
Defined.

Lemma remove_no_match_witness :
  let s := after (insert_emp emp_1) fresh in
  view (after (remove_emp emp_2) s) = view s /\
  after (remove_emp emp_2) s = s.
Proof.
  intros s.
  assert (Ha : absent (first emp_2) (last emp_2) (view s)).
  { intros r [<- | []] [Hf _]. discriminate Hf. }
  destruct (remove_no_match emp_2 s Ha) as [Hview Hidle].
  split; [apply Hview; reflexivity | apply Hidle; reflexivity].
Defined.

Lemma remove_query_frame_witness :
  let s := after (insert_emp emp_2) (after (insert_emp emp_1) fresh) in
  exists rows,
    fst (get_emps_by_name (py "Doe") s) = Returned rows /\
    fst (get_emps_by_name (py "Doe") (after (remove_emp emp_1) s)) =
    Returned (filter (fun x => negb (tuple_same_emp (py "John") (py "Doe") x))
                rows).
Proof.
  intros s. apply (remove_query_frame emp_1 (py "Doe") s); reflexivity.
Defined.

Lemma insert_query_frame_witness :
  exists rows,
    fst (get_emps_by_name (py "Doe") (after (insert_emp emp_1) fresh))
      = Returned rows /\
    fst (get_emps_by_name (py "Doe")
           (after (insert_emp emp_2) (after (insert_emp emp_1) fresh))) =
    Returned (rows ++ [(py "Jane", py "Doe", 90000)]).
Proof.
  apply (insert_query_frame emp_2 (py "Doe") (after (insert_emp emp_1) fresh));
    reflexivity.
Defined.

Lemma update_query_frame_witness :
  let s := after (insert_emp emp_2) (after (insert_emp emp_1) fresh) in
  exists rows,
    fst (get_emps_by_name (py "Doe") s) = Returned rows /\
    fst (get_emps_by_name (py "Doe") (after (update_pay emp_2 95000) s)) =
    Returned (map (set_tuple_pay (py "Jane") (py "Doe") 95000) rows).
Proof.
  intros s. apply (update_query_frame emp_2 95000 (py "Doe") s); reflexivity.
Defined.

Lemma update_last_wins_witness :
  let s := after (insert_emp emp_2) fresh in
  update_pay emp_2 95000 (after (update_pay emp_2 91000) s) =
  update_pay emp_2 95000 s.
Proof.
  intros s. apply (update_last_wins emp_2 91000 95000 s); reflexivity.
Defined.

Lemma insert_then_remove_witness :
  remove_emp emp_1 (after (insert_emp emp_1) (after (insert_emp emp_2) fresh)) =
  remove_emp emp_1 (after (insert_emp emp_2) fresh).
Proof.
  apply (insert_then_remove emp_1 (after (insert_emp emp_2) fresh)).
  left. reflexivity.
Defined.


Lemma remove_commute_witness :
  let s := after (insert_emp emp_2) (after (insert_emp emp_1) fresh) in
  after (remove_emp emp_lone) (after (remove_emp emp_1) s) =
  after (remove_emp emp_1) (after (remove_emp emp_lone) s).
Proof.
  intros s. apply (remove_commute emp_1 emp_lone s). reflexivity.
Defined.

Lemma update_remove_commute_witness :
  let s := after (insert_emp emp_2) (after (insert_emp emp_1) fresh) in
  after (remove_emp emp_1) (after (update_pay emp_2 95000) s) =
  after (update_pay emp_2 95000) (after (remove_emp emp_1) s).
Proof.
  intros s. apply (update_remove_commute emp_2 emp_1 95000 s). reflexivity.
Defined.
